(** * airways.gg: the schedule scraper and the prediction service

    A shallow embedding of [alpha_testing/reper.py] (the coroutine
    [fetch_flights] with its response observer [on_response]) and of
    [apps/ml-service/main.py] (the handlers [predict] and [predict_batch]),
    followed by the properties of these functions. *)

From Stdlib Require Import String List Bool Arith ZArith Lia Floats.
Import ListNotations.
Local Open Scope string_scope.
#[local] Set Warnings "-register-all".

(** ** The scraper: [alpha_testing/reper.py] *)

Module Scraper.

(** *** Python values the script tests for truth *)

(** [captured_data] and [target_date] hold [None] or a [str]; an [if not x]
    test takes [None] and the empty string alike as false. *)
Definition truthy (v : option string) : bool :=
  match v with
  | None => false
  | Some s => negb (s =? "")
  end.

(** The [in] operator on strings: [sub in s]. *)
Definition contains (sub s : string) : bool :=
  match String.index 0 sub s with
  | Some _ => true
  | None => false
  end.

(** *** The browser as the script sees it *)

(** Exceptions of the Playwright client; both derive from [Exception]. *)
Inductive exn : Type :=
  | TimeoutError (msg : string)
  | Error (msg : string).

(** What [await response.text()] gives for one response. *)
Inductive read_result : Type :=
  | ReadOk (body : string)
  | ReadFail (e : exn).

(** A network response delivered to the page's ['response'] listeners. *)
Record response : Type := mkResponse {
  url : string;
  text : read_result
}.

(** Lines written to standard output, kept structured. *)
Inductive line : Type :=
  | Captured (len : nat) (from : string)
  | ErrorReading (e : exn)
  | LoadingPage (direction target_date : string)
  | CouldNotClick.

(** Effects of the coroutine visible from outside, in program order. *)
Inductive effect : Type :=
  | EEnter                                   (* async_playwright().__aenter__ *)
  | ELaunch
  | ENewContext
  | ENewPage
  | EStealth
  | EListen                                  (* page.on('response', ...) *)
  | EPrint (l : line)
  | EGoto (target wait_until : string) (timeout_ms : Z)
  | ESleep (seconds : nat)
  | EClick (selector : string)
  | EClose                                   (* browser.close() *)
  | EExit.                                   (* async_playwright().__aexit__ *)

(** The outside world of one call.  The listener runs on the event loop while
    the coroutine is suspended in an [await]; each list holds the responses
    whose listener invocation finishes during that [await], in the order in
    which they finish.  [None] as a result means the awaited call returned. *)
Record env : Type := mkEnv {
  today : string;                            (* date.today().isoformat() *)
  goto_events : list response;
  goto_result : option exn;
  settle_events : list response;             (* during asyncio.sleep(5) *)
  click_events : list response;
  click_result : option exn;
  recovery_events : list response;           (* during asyncio.sleep(4) *)
  close_events : list response;
  exit_events : list response
}.

(** The results of the awaited calls that set the session up and take it
    down, none of which the script guards: entering the [async_playwright]
    block, [launch], [new_context], [new_page], [stealth_async],
    [browser.close()] and leaving the block.  [None] means the call
    returned. *)
Record faults : Type := mkFaults {
  enter_result : option exn;
  launch_result : option exn;
  new_context_result : option exn;
  new_page_result : option exn;
  stealth_result : option exn;
  close_result : option exn;
  exit_result : option exn
}.

(** The session is set up and taken down without error. *)
Definition no_faults : faults :=
  {| enter_result := None; launch_result := None; new_context_result := None;
     new_page_result := None; stealth_result := None; close_result := None;
     exit_result := None |}.

(** The store of one call: the closure variable [captured_data], the two
    resources the call owns, and the record of what it did. *)
Record state : Type := mkState {
  captured_data : option string;
  playwright_running : bool;
  browser_open : bool;
  seen : list response;                      (* responses handed to on_response *)
  trace : list effect
}.

Definition init : state :=
  {| captured_data := None; playwright_running := false; browser_open := false;
     seen := []; trace := [] |}.

(** *** Computations that change the store and may raise *)

Inductive outcome (A : Type) : Type :=
  | Returned (a : A)
  | Raised (e : exn).
Arguments Returned {A} a.
Arguments Raised {A} e.

Definition M (A : Type) : Type := state -> outcome A * state.

Definition ret {A} (a : A) : M A := fun s => (Returned a, s).

Definition bind {A B} (m : M A) (k : A -> M B) : M B :=
  fun s =>
    match m s with
    | (Returned a, s') => k a s'
    | (Raised e, s') => (Raised e, s')
    end.

Definition raise {A} (e : exn) : M A := fun s => (Raised e, s).

(** [try: m except ...: h] *)
Definition try_except {A} (m : M A) (h : exn -> M A) : M A :=
  fun s =>
    match m s with
    | (Returned a, s') => (Returned a, s')
    | (Raised e, s') => h e s'
    end.

Declare Scope py_scope.
Delimit Scope py_scope with py.
Notation "x <- m ;; k" := (bind m (fun x => k))
  (at level 61, m at next level, right associativity) : py_scope.
Notation "m ;; k" := (bind m (fun _ => k))
  (at level 61, right associativity) : py_scope.
Local Open Scope py_scope.

Definition get_captured : M (option string) :=
  fun s => (Returned (captured_data s), s).

Definition set_captured (v : option string) : M unit :=
  fun s => (Returned tt,
            {| captured_data := v; playwright_running := playwright_running s;
               browser_open := browser_open s; seen := seen s; trace := trace s |}).

Definition emit (e : effect) : M unit :=
  fun s => (Returned tt,
            {| captured_data := captured_data s;
               playwright_running := playwright_running s;
               browser_open := browser_open s; seen := seen s;
               trace := trace s ++ [e] |}).

Definition print (l : line) : M unit := emit (EPrint l).

Definition note_seen (r : response) : M unit :=
  fun s => (Returned tt,
            {| captured_data := captured_data s;
               playwright_running := playwright_running s;
               browser_open := browser_open s; seen := seen s ++ [r];
               trace := trace s |}).

Definition set_playwright (b : bool) : M unit :=
  fun s => (Returned tt,
            {| captured_data := captured_data s; playwright_running := b;
               browser_open := browser_open s; seen := seen s; trace := trace s |}).

Definition set_browser (b : bool) : M unit :=
  fun s => (Returned tt,
            {| captured_data := captured_data s;
               playwright_running := playwright_running s;
               browser_open := b; seen := seen s; trace := trace s |}).

(** [await response.text()] *)
Definition response_text (r : response) : M string :=
  match text r with
  | ReadOk body => ret body
  | ReadFail e => raise e
  end.

(** The listener, lines 38-45. *)
Definition on_response (r : response) : M unit :=
  note_seen r ;;
  if contains "/api/schedule" (url r) then
    try_except
      (body <- response_text r ;;
       set_captured (Some body) ;;
       print (Captured (String.length body) (url r)))
      (fun e => print (ErrorReading e))
  else ret tt.

(** The listener invocations that finish during one [await]. *)
Fixpoint deliver (rs : list response) : M unit :=
  match rs with
  | [] => ret tt
  | r :: rs' => on_response r ;; deliver rs'
  end.

(** An awaited call: the event loop runs the listeners that become ready,
    then the call returns or raises. *)
Definition await (e : effect) (rs : list response) (res : option exn) : M unit :=
  emit e ;;
  deliver rs ;;
  match res with
  | None => ret tt
  | Some x => raise x
  end.

(** [m] followed by [cleanup] on every way out of [m]; an exception of [m]
    is raised again once [cleanup] is done. *)
Definition finally {A} (m : M A) (cleanup : M unit) : M A :=
  fun s =>
    match m s with
    | (r, s') =>
        match cleanup s' with
        | (Returned _, s'') => (r, s'')
        | (Raised e, s'') => (Raised e, s'')
        end
    end.

(** An awaited call made before the listener is registered: it returns or
    raises. *)
Definition call (e : effect) (res : option exn) : M unit :=
  emit e ;;
  match res with
  | None => ret tt
  | Some x => raise x
  end.

(** [async with async_playwright() as p: body].  When entering the block
    raises, the body is not run.  Leaving the block stops the Playwright
    driver, and with it every browser the driver launched, whether the body
    returned or raised; when leaving raises, that exception replaces the
    outcome of the body and the resources stay as they were. *)
Definition async_with {A} (enter_res exit_res : option exn)
    (exit_rs : list response) (body : M A) : M A :=
  call EEnter enter_res ;;
  set_playwright true ;;
  finally body
    (await EExit exit_rs exit_res ;; set_playwright false ;; set_browser false).

(** [await p.chromium.launch(...)], lines 15-21. *)
Definition launch (res : option exn) : M unit :=
  call ELaunch res ;; set_browser true.

(** [await browser.close()], line 68. *)
Definition browser_close (rs : list response) (res : option exn) : M unit :=
  await EClose rs res ;; set_browser false.

Definition target_url : string :=
  "https://www.aurigny.com/information/arrivals-departures".

(** Lines 9-10. *)
Definition resolve_target_date (w : env) (target_date : option string) : string :=
  match target_date with
  | Some d => if negb (truthy (Some d)) then today w else d
  | None => today w
  end.

(** The [try] statement of lines 62-66; its bare [except] catches whatever
    the click or the pause raises. *)
Definition click_arrivals (w : env) : M unit :=
  try_except
    (await (EClick "text=Arrivals") (click_events w) (click_result w) ;;
     await (ESleep 4) (recovery_events w) None)
    (fun _ => print CouldNotClick).

(** [fetch_flights], lines 8-70, with the results [f] of the calls that set
    the session up and take it down. *)
Definition fetch_flights_under (f : faults) (w : env) (direction : string)
    (target_date : option string) : M (option string) :=
  let target_date := resolve_target_date w target_date in
  set_captured None ;;
  async_with (enter_result f) (exit_result f) (exit_events w)
    (launch (launch_result f) ;;
     call ENewContext (new_context_result f) ;;
     call ENewPage (new_page_result f) ;;
     call EStealth (stealth_result f) ;;
     emit EListen ;;
     print (LoadingPage direction target_date) ;;
     await (EGoto target_url "networkidle" 60000%Z)
           (goto_events w) (goto_result w) ;;
     await (ESleep 5) (settle_events w) None ;;
     c <- get_captured ;;
     (if (direction =? "arr") && negb (truthy c) then click_arrivals w
      else ret tt) ;;
     browser_close (close_events w) (close_result f)) ;;
  get_captured.

(** [fetch_flights] when the session is set up and taken down without
    error: what is left to the world is the navigation, the responses and
    the arrivals control. *)
Definition fetch_flights (w : env) (direction : string)
    (target_date : option string) : M (option string) :=
  fetch_flights_under no_faults w direction target_date.

(** One call, from a fresh store. *)
Definition run_fetch (w : env) (direction : string)
    (target_date : option string) : outcome (option string) * state :=
  fetch_flights w direction target_date init.

(** One call from a fresh store, the session calls failing as [f] says. *)
Definition run_under (f : faults) (w : env) (direction : string)
    (target_date : option string) : outcome (option string) * state :=
  fetch_flights_under f w direction target_date init.

(** The results of the awaited calls that stand outside every [try], in
    program order. *)
Definition unguarded (f : faults) (w : env) : list (option exn) :=
  [ enter_result f; launch_result f; new_context_result f;
    new_page_result f; stealth_result f; goto_result w; close_result f;
    exit_result f ].

(** *** Reading a run *)

(** The listener's test on a response. *)
Definition matches (r : response) : bool :=
  contains "/api/schedule" (url r).

(** The slot once the listener has handled [r], given the slot before. *)
Definition capture (c : option string) (r : response) : option string :=
  if matches r then
    match text r with
    | ReadOk body => Some body
    | ReadFail _ => c
    end
  else c.

(** Responses that leave the slot as it is: those the listener does not
    match, and those whose body cannot be read. *)
Definition inert (r : response) : Prop :=
  matches r = true -> exists e, text r = ReadFail e.

(** What the listener prints for [r]. *)
Definition lines (r : response) : list effect :=
  if matches r then
    match text r with
    | ReadOk body => [EPrint (Captured (String.length body) (url r))]
    | ReadFail e => [EPrint (ErrorReading e)]
    end
  else [].

(** The slot at the test of line 61, for a call that gets there. *)
Definition slot_at_check (w : env) : option string :=
  fold_left capture (goto_events w ++ settle_events w) None.

(** Whether the test of line 61 sends the call into the recovery branch. *)
Definition recovery_due (w : env) (direction : string) : bool :=
  (direction =? "arr") && negb (truthy (slot_at_check w)).

(** The responses whose listener ran before the call was over. *)
Definition observed (w : env) (direction : string) : list response :=
  match goto_result w with
  | Some _ => goto_events w ++ exit_events w
  | None =>
      goto_events w ++ settle_events w ++
      (if recovery_due w direction then
         click_events w ++
         match click_result w with
         | None => recovery_events w
         | Some _ => []
         end
       else []) ++
      close_events w ++ exit_events w
  end.

(** The effects up to and including the navigation. *)
Definition prelude (direction target_date : string) : list effect :=
  [ EEnter; ELaunch; ENewContext; ENewPage; EStealth; EListen;
    EPrint (LoadingPage direction target_date);
    EGoto target_url "networkidle" 60000%Z ].

(** The effects of lines 61-66. *)
Definition recovery_effects (w : env) (direction : string) : list effect :=
  if recovery_due w direction then
    EClick "text=Arrivals" :: flat_map lines (click_events w) ++
    match click_result w with
    | None => ESleep 4 :: flat_map lines (recovery_events w)
    | Some _ => [EPrint CouldNotClick]
    end
  else [].

(** The effects of a whole call. *)
Definition effects (w : env) (direction : string) (target_date : option string)
    : list effect :=
  prelude direction (resolve_target_date w target_date) ++
  flat_map lines (goto_events w) ++
  match goto_result w with
  | Some _ => []
  | None =>
      ESleep 5 :: flat_map lines (settle_events w) ++
      recovery_effects w direction ++
      EClose :: flat_map lines (close_events w)
  end ++
  EExit :: flat_map lines (exit_events w).

Definition is_click (e : effect) : bool :=
  match e with
  | EClick _ => true
  | _ => false
  end.

(** How many times a run tried the arrivals control. *)
Definition clicks (t : list effect) : nat := length (filter is_click t).

(** The seconds a run spent in [asyncio.sleep]. *)
Fixpoint slept (t : list effect) : nat :=
  match t with
  | [] => 0
  | ESleep n :: t' => n + slept t'
  | _ :: t' => slept t'
  end.

(** An effect with the direction of its [Loading page] line replaced. *)
Definition with_direction (d : string) (e : effect) : effect :=
  match e with
  | EPrint (LoadingPage _ t) => EPrint (LoadingPage d t)
  | _ => e
  end.

End Scraper.

(** ** The prediction service: [apps/ml-service/main.py] *)

Module MlService.

(** Values of the dictionaries the handlers receive and build. *)
Inductive value : Type :=
  | VNone
  | VBool (b : bool)
  | VInt (n : Z)
  | VFloat (x : float)
  | VStr (s : string)
  | VList (vs : list value)
  | VDict (kvs : list (string * value)).

(** A [dict]: keys with their values, in insertion order. *)
Definition dict : Type := list (string * value).

Record PredictionRequest : Type := mkPredictionRequest {
  flight_id : Z;
  weather_data : option dict;
  flight_features : option dict
}.

Record PredictionResponse : Type := mkPredictionResponse {
  resp_flight_id : Z;
  probability : float;
  confidence : string;
  predicted_delay_minutes : Z;
  model_version : string
}.

Record BatchPredictionRequest : Type := mkBatchPredictionRequest {
  flights : list PredictionRequest
}.

(** The fields of a [PredictionResponse] as a dictionary, in the order the
    class declares them (what the framework serialises). *)
Definition model_dump (r : PredictionResponse) : dict :=
  [ ("flight_id", VInt (resp_flight_id r));
    ("probability", VFloat (probability r));
    ("confidence", VStr (confidence r));
    ("predicted_delay_minutes", VInt (predicted_delay_minutes r));
    ("model_version", VStr (model_version r)) ].

(** [predict], lines 35-44. *)
Definition predict (request : PredictionRequest) : PredictionResponse :=
  {| resp_flight_id := flight_id request;
     probability := 0.75%float;
     confidence := "medium";
     predicted_delay_minutes := 15%Z;
     model_version := "1.0.0" |}.

(** The body of the loop of [predict_batch], lines 51-57: [results.append]
    of the dictionary built for one flight. *)
Definition append_result (results : list dict) (flight : PredictionRequest)
    : list dict :=
  results ++
  [ [ ("flight_id", VInt (flight_id flight));
      ("probability", VFloat 0.75%float);
      ("confidence", VStr "medium");
      ("predicted_delay_minutes", VInt 15%Z);
      ("model_version", VStr "1.0.0") ] ].

(** The list [results] when the loop of [predict_batch] is over. *)
Definition batch_results (request : BatchPredictionRequest) : list dict :=
  fold_left append_result (flights request) [].

(** [predict_batch], lines 46-58. *)
Definition predict_batch (request : BatchPredictionRequest) : dict :=
  [ ("predictions", VList (map VDict (batch_results request))) ].

(** The batch result in the words of its description: the single prediction
    mapped over the input list. *)
Definition predict_batch_by_map (request : BatchPredictionRequest) : dict :=
  [ ("predictions",
     VList (map (fun flight => VDict (model_dump (predict flight)))
                (flights request))) ].

(** [d[k]] for a dictionary built by a literal: the value of the first pair
    whose key is [k]; [None] stands for [KeyError]. *)
Fixpoint dict_get (k : string) (d : dict) : option value :=
  match d with
  | [] => None
  | (k', v) :: d' => if k =? k' then Some v else dict_get k d'
  end.

(** [health_check], lines 23-25. *)
Definition health_check : dict :=
  [ ("status", VStr "healthy"); ("service", VStr "ml-service") ].

(** [model_info], lines 27-33. *)
Definition model_info : dict :=
  [ ("version", VStr "1.0.0");
    ("type", VStr "Random Forest Classifier + Regressor");
    ("status", VStr "active") ].

(** [train_model], lines 60-67. *)
Definition train_model (date_from date_to : string) : dict :=
  [ ("status", VStr "training_started");
    ("date_from", VStr date_from);
    ("date_to", VStr date_to) ].

End MlService.

(** ** Concrete runs of the scraper *)

Module Scenarios.
Import Scraper.

Definition schedule_url : string :=
  "https://www.aurigny.com/api/schedule?direction=dep".

(** A world in which nothing answers and nothing fails. *)
Definition quiet : env :=
  {| today := "2026-11-04";
     goto_events := []; goto_result := None;
     settle_events := [];
     click_events := []; click_result := None;
     recovery_events := [];
     close_events := []; exit_events := [] |}.

(** Two schedule responses arrive while the page loads. *)
Definition two_matches : env :=
  {| today := "2026-11-04";
     goto_events :=
       [ mkResponse schedule_url (ReadOk "<first/>");
         mkResponse "https://www.aurigny.com/api/schedule?direction=arr"
                    (ReadOk "<second/>") ];
     goto_result := None;
     settle_events := [];
     click_events := []; click_result := None;
     recovery_events := [];
     close_events := []; exit_events := [] |}.




(** One schedule response during the settle delay. *)
Definition one_match : env :=
  {| today := "2026-11-04";
     goto_events :=
       [ mkResponse "https://www.aurigny.com/static/site.css" (ReadOk "body{}") ];
     goto_result := None;
     settle_events := [ mkResponse schedule_url (ReadOk "<flights></flights>") ];
     click_events := []; click_result := None;
     recovery_events := [];
     close_events := []; exit_events := [] |}.

(** The schedule endpoint answers with an empty body. *)
Definition empty_body : env :=
  {| today := "2026-11-04";
     goto_events := [ mkResponse schedule_url (ReadOk "") ];
     goto_result := None;
     settle_events := [];
     click_events := []; click_result := None;
     recovery_events := [];
     close_events := []; exit_events := [] |}.

(** The body of the schedule response cannot be read, and the page has no
    arrivals control. *)
Definition nothing_works : env :=
  {| today := "2026-11-04";
     goto_events :=
       [ mkResponse schedule_url (ReadFail (Error "Target closed")) ];
     goto_result := None;
     settle_events := [];
     click_events := [];
     click_result := Some (TimeoutError "Timeout 30000ms exceeded.");
     recovery_events := [];
     close_events := []; exit_events := [] |}.

(** The page loads, nothing answers, and the page has no arrivals control:
    [quiet] but for the click. *)
Definition no_arrivals_tab : env :=
  {| today := "2026-11-04";
     goto_events := []; goto_result := None;
     settle_events := [];
     click_events := [];
     click_result := Some (TimeoutError "Timeout 30000ms exceeded.");
     recovery_events := [];
     close_events := []; exit_events := [] |}.

(** The browser cannot be started. *)
Definition no_browser : faults :=
  {| enter_result := None;
     launch_result := Some (Error "BrowserType.launch: Executable does not exist");
     new_context_result := None; new_page_result := None;
     stealth_result := None; close_result := None; exit_result := None |}.

End Scenarios.

(** ** The entry point of the scraper: [main], lines 72-83 *)

Module Entry.
Import Scraper.

(** The files of the working directory: the content under each name. *)
Definition files : Type := string -> option string.

(** [open(name, 'w')] followed by [f.write(content)]. *)
Definition write (name content : string) (fs : files) : files :=
  fun n => if n =? name then Some content else fs n.

(** What leaves [main] as an exception: one of [fetch_flights], or the
    [OSError] of an [open] that fails. *)
Inductive failure : Type :=
  | FetchFailed (e : exn)
  | OpenFailed (msg : string).

(** The lines [main] itself prints. *)
Inductive report : Type :=
  | SavedTo (name : string)
  | Preview (shown : string)
  | NoDataCaptured.

(** [data[:300]] *)
Definition preview (data : string) : string := substring 0 300 data.

(** One run of the script: the exception it ends with, if any, the store
    [fetch_flights] left, the files and what [main] printed. *)
Record ending : Type := mkEnding {
  raised : option failure;
  fetched : state;
  files_after : files;
  console : list report
}.

(** [main], lines 72-81, run by [asyncio.run] on line 83.  [open_error] is
    the error of [open('flights.xml', 'w')], [None] when the file opens; the
    write itself is taken to succeed. *)
Definition main (w : env) (open_error : option string) (fs : files) : ending :=
  match run_fetch w "dep" None with
  | (Raised e, s) =>
      {| raised := Some (FetchFailed e); fetched := s;
         files_after := fs; console := [] |}
  | (Returned data, s) =>
      match data with
      | Some d =>
          if truthy (Some d) then
            match open_error with
            | None =>
                {| raised := None; fetched := s;
                   files_after := write "flights.xml" d fs;
                   console := [SavedTo "flights.xml"; Preview (preview d)] |}
            | Some msg =>
                {| raised := Some (OpenFailed msg); fetched := s;
                   files_after := fs; console := [] |}
            end
          else
            {| raised := None; fetched := s;
               files_after := fs; console := [NoDataCaptured] |}
      | None =>
          {| raised := None; fetched := s;
             files_after := fs; console := [NoDataCaptured] |}
      end
  end.

(** A working directory that holds the file of an earlier run. *)
Definition stale_disk : files :=
  fun n => if n =? "flights.xml" then Some "<old/>" else None.

End Entry.

(** ** More readings of a run of [fetch_flights] *)

Module Readings.
Import Scraper.





(** The world in which only the responses the listener matches arrive. *)
Definition only_matching (w : env) : env :=
  {| today := today w;
     goto_events := filter matches (goto_events w);
     goto_result := goto_result w;
     settle_events := filter matches (settle_events w);
     click_events := filter matches (click_events w);
     click_result := click_result w;
     recovery_events := filter matches (recovery_events w);
     close_events := filter matches (close_events w);
     exit_events := filter matches (exit_events w) |}.

End Readings.

(** ** Properties of the scraper *)

Module ScraperProps.
Import Scraper.
Local Open Scope py_scope.
Local Open Scope list_scope.

(** *** The listener *)

Lemma on_response_run (r : response) (s : state) :
  on_response r s =
  (Returned tt,
   {| captured_data := capture (captured_data s) r;
      playwright_running := playwright_running s;
      browser_open := browser_open s;
      seen := seen s ++ [r];
      trace := trace s ++ lines r |}).
Proof.
  unfold on_response, capture, lines, matches, bind, note_seen.
  destruct (contains "/api/schedule" (url r)); cbn.
  - unfold try_except, bind, response_text.
    destruct (text r); cbn; reflexivity.
  - rewrite app_nil_r. reflexivity.
Qed.

Lemma deliver_run (rs : list response) (s : state) :
  deliver rs s =
  (Returned tt,
   {| captured_data := fold_left capture rs (captured_data s);
      playwright_running := playwright_running s;
      browser_open := browser_open s;
      seen := seen s ++ rs;
      trace := trace s ++ flat_map lines rs |}).
Proof.
  revert s. induction rs as [| r rs IH]; intros s.
  - cbn. rewrite !app_nil_r. destruct s; reflexivity.
  - cbn [deliver]. unfold bind. rewrite on_response_run, IH. cbn.
    rewrite <- !app_assoc. reflexivity.
Qed.

(** *** A whole call *)

Ltac run :=
  repeat (progress cbv beta iota zeta delta
            [run_fetch run_under fetch_flights fetch_flights_under no_faults
             enter_result launch_result new_context_result new_page_result
             stealth_result close_result exit_result call
             click_arrivals async_with finally launch
             browser_close
             await try_except bind emit print set_captured set_playwright
             set_browser get_captured ret raise init
             fst snd captured_data playwright_running browser_open seen trace]
          || rewrite deliver_run).

Ltac flatten_lists :=
  rewrite <- ?fold_left_app;
  repeat first [ rewrite <- app_assoc | rewrite app_nil_r | progress cbn [app] ].

(** What one call returns and the store it leaves. *)
Lemma run_fetch_eq (w : env) (d : string) (td : option string) :
  run_fetch w d td =
  (match goto_result w with
   | Some x => Raised x
   | None => Returned (fold_left capture (observed w d) None)
   end,
   {| captured_data := fold_left capture (observed w d) None;
      playwright_running := false;
      browser_open := false;
      seen := observed w d;
      trace := effects w d td |}).
Proof.
  unfold observed, effects, recovery_effects, recovery_due, slot_at_check, prelude.
  run. destruct (goto_result w) as [x |]; run.
  - flatten_lists. reflexivity.
  - rewrite <- fold_left_app.
    destruct ((d =? "arr") && negb (truthy (fold_left capture (goto_events w ++ settle_events w) None))).
    + run. destruct (click_result w) as [y |]; run; flatten_lists; reflexivity.
    + run. flatten_lists. reflexivity.
Qed.

Lemma run_outcome (w : env) (d : string) (td : option string) :
  fst (run_fetch w d td) =
  match goto_result w with
  | Some x => Raised x
  | None => Returned (captured_data (snd (run_fetch w d td)))
  end.
Proof. rewrite run_fetch_eq. reflexivity. Qed.

Lemma run_captured (w : env) (d : string) (td : option string) :
  captured_data (snd (run_fetch w d td)) =
  fold_left capture (seen (snd (run_fetch w d td))) None.
Proof. rewrite run_fetch_eq. reflexivity. Qed.

Lemma run_trace (w : env) (d : string) (td : option string) :
  trace (snd (run_fetch w d td)) = effects w d td.
Proof. rewrite run_fetch_eq. reflexivity. Qed.

(** *** The slot along a sequence of responses *)

Lemma capture_inert (c : option string) (r : response) :
  inert r -> capture c r = c.
Proof.
  unfold inert, capture. intros H.
  destruct (matches r); [| reflexivity].
  destruct (H eq_refl) as [e He]. rewrite He. reflexivity.
Qed.

Lemma fold_capture_inert (rs : list response) (c : option string) :
  Forall inert rs -> fold_left capture rs c = c.
Proof.
  intros H. revert c. induction H as [| r rs Hr _ IH]; intros c; cbn.
  - reflexivity.
  - rewrite (capture_inert c r Hr). apply IH.
Qed.

Lemma fold_capture_last (pre post : list response) (r : response)
    (body : string) (c : option string) :
  matches r = true -> text r = ReadOk body -> Forall inert post ->
  fold_left capture (pre ++ r :: post) c = Some body.
Proof.
  intros Hm Ht Hpost. rewrite fold_left_app. cbn [fold_left].
  rewrite fold_capture_inert by assumption.
  unfold capture. rewrite Hm, Ht. reflexivity.
Qed.



(** *** Which response the call keeps *)

(** C1, as the code has it: every matching response whose body is read
    overwrites the slot, so the slot ends with the body of the LAST matching
    response read successfully (in the order in which the listener
    invocations finish), and that body is what a call returns when its
    navigation succeeded. *)
Theorem last_successful_read_is_kept (w : env) (d : string)
    (td : option string) (pre post : list response) (r : response)
    (body : string) :
  seen (snd (run_fetch w d td)) = pre ++ r :: post ->
  matches r = true ->
  text r = ReadOk body ->
  Forall inert post ->
  captured_data (snd (run_fetch w d td)) = Some body /\
  (goto_result w = None -> fst (run_fetch w d td) = Returned (Some body)).
Proof.
  intros Hseen Hm Ht Hpost.
  assert (Hc : captured_data (snd (run_fetch w d td)) = Some body).
  { rewrite run_captured, Hseen. apply fold_capture_last; assumption. }
  split; [exact Hc |].
  intros Hgo. rewrite run_outcome, Hgo, Hc. reflexivity.
Qed.

Lemma last_successful_read_is_kept_two_matches :
  captured_data (snd (run_fetch Scenarios.two_matches "dep" None))
  = Some "<second/>" /\
  (goto_result Scenarios.two_matches = None ->
   fst (run_fetch Scenarios.two_matches "dep" None)
   = Returned (Some "<second/>")).
Proof.
  apply (last_successful_read_is_kept Scenarios.two_matches "dep" None
           [mkResponse Scenarios.schedule_url (ReadOk "<first/>")] []
           (mkResponse "https://www.aurigny.com/api/schedule?direction=arr"
                       (ReadOk "<second/>"))).
  - vm_compute. reflexivity.
  - vm_compute. reflexivity.
  - reflexivity.
  - constructor.
Defined.

(** C1, as stated, fails: with two matching responses, both read in full,
    the slot and the returned payload hold the second body, not the first. *)
Lemma second_match_overwrites_first :
  let s := snd (run_fetch Scenarios.two_matches "dep" None) in
  map text (filter matches (seen s)) = [ReadOk "<first/>"; ReadOk "<second/>"] /\
  captured_data s = Some "<second/>" /\
  captured_data s <> Some "<first/>" /\
  fst (run_fetch Scenarios.two_matches "dep" None) = Returned (Some "<second/>").
Proof.
  vm_compute. repeat split; discriminate.
Qed.

(** *** A navigation that fails *)





(** *** The payload handed back *)




(** *** The recovery branch *)

Lemma slot_at_check_deliver (w : env) :
  captured_data (snd (deliver (goto_events w ++ settle_events w) init))
  = slot_at_check w.
Proof. rewrite deliver_run. reflexivity. Qed.

Lemma clicks_app (a b : list effect) : clicks (a ++ b) = clicks a + clicks b.
Proof. unfold clicks. rewrite filter_app, length_app. reflexivity. Qed.

Lemma clicks_cons (e : effect) (t : list effect) :
  clicks (e :: t) = (if is_click e then 1 else 0) + clicks t.
Proof. unfold clicks. cbn [filter]. destruct (is_click e); reflexivity. Qed.

Lemma clicks_lines (rs : list response) : clicks (flat_map lines rs) = 0.
Proof.
  induction rs as [| r rs IH]; [reflexivity |].
  cbn [flat_map]. rewrite clicks_app, IH. unfold lines.
  destruct (matches r); [destruct (text r) |]; reflexivity.
Qed.

Lemma slept_app (a b : list effect) : slept (a ++ b) = slept a + slept b.
Proof.
  induction a as [| e a IH]; [reflexivity |].
  destruct e; cbn [app slept]; rewrite IH; lia.
Qed.

Lemma slept_lines (rs : list response) : slept (flat_map lines rs) = 0.
Proof.
  induction rs as [| r rs IH]; [reflexivity |].
  cbn [flat_map]. rewrite slept_app, IH. unfold lines.
  destruct (matches r); [destruct (text r) |]; reflexivity.
Qed.

Lemma clicks_effects (w : env) (d : string) (td : option string) :
  clicks (effects w d td) =
  match goto_result w with
  | Some _ => 0
  | None => if recovery_due w d then 1 else 0
  end.
Proof.
  unfold effects, recovery_effects.
  destruct (goto_result w); [| destruct (recovery_due w d);
                                [destruct (click_result w) |]];
    unfold prelude;
    repeat first [ rewrite clicks_app | rewrite clicks_lines
                 | rewrite clicks_cons ];
    reflexivity.
Qed.

Lemma slept_effects (w : env) (d : string) (td : option string) :
  slept (effects w d td) =
  match goto_result w with
  | Some _ => 0
  | None =>
      5 + (if recovery_due w d
           then match click_result w with None => 4 | Some _ => 0 end
           else 0)
  end.
Proof.
  unfold effects, recovery_effects.
  destruct (goto_result w); [| destruct (recovery_due w d);
                                [destruct (click_result w) |]];
    unfold prelude;
    repeat first [ rewrite slept_app | rewrite slept_lines
                 | progress cbn [slept] ];
    reflexivity.
Qed.

Lemma recovery_due_iff (w : env) (d : string) :
  recovery_due w d = true <-> d = "arr" /\ truthy (slot_at_check w) = false.
Proof.
  unfold recovery_due.
  rewrite andb_true_iff, negb_true_iff, String.eqb_eq. reflexivity.
Qed.

(** C4, as the code has it: the arrivals control is tried exactly once when
    the navigation succeeded, the direction is ['arr'] and the slot, after
    the settle delay, is unset or holds an empty body; in every other call
    it is not tried at all.  The 4-second pause follows only a click that
    succeeded. *)
Theorem recovery_attempted_iff (w : env) (d : string) (td : option string) :
  let t := trace (snd (run_fetch w d td)) in
  let c := captured_data
             (snd (deliver (goto_events w ++ settle_events w) init)) in
  (clicks t = 1 <-> goto_result w = None /\ d = "arr" /\ truthy c = false) /\
  (clicks t = 0 \/ clicks t = 1) /\
  slept t = match goto_result w with
            | Some _ => 0
            | None => 5 + match click_result w with
                          | None => 4 * clicks t
                          | Some _ => 0
                          end
            end.
Proof.
  cbv zeta. rewrite slot_at_check_deliver, run_trace.
  rewrite slept_effects, clicks_effects.
  pose proof (recovery_due_iff w d) as Hdue.
  destruct (goto_result w) as [x |].
  - split; [| split; [left |]; reflexivity].
    split; [discriminate | intros [H _]; discriminate].
  - destruct (recovery_due w d).
    + split; [| split; [right; reflexivity |]].
      * split; [intros _ | reflexivity].
        split; [reflexivity | apply Hdue; reflexivity].
      * destruct (click_result w); reflexivity.
    + split; [| split; [left; reflexivity |]].
      * split; [discriminate |].
        intros [_ H]. apply Hdue in H. discriminate.
      * destruct (click_result w); reflexivity.
Qed.

(** C4, as stated, fails: the direction is ['arr'], the slot is not empty
    after the settle delay (it holds the empty body that was captured), and
    the arrivals control is tried all the same. *)
Lemma empty_capture_still_recovers :
  let c := captured_data
             (snd (deliver (goto_events Scenarios.empty_body ++
                            settle_events Scenarios.empty_body) init)) in
  c = Some "" /\
  c <> None /\
  clicks (trace (snd (run_fetch Scenarios.empty_body "arr" None))) = 1.
Proof.
  vm_compute. repeat split; discriminate.
Qed.

(** *** Failures that stay local, and failures that do not *)

Ltac split_run :=
  repeat (run; try reflexivity;
          match goal with
          | |- context [match ?o with Some _ => _ | None => _ end] => destruct o
          | |- context [if ?b then _ else _] => destruct b
          end).

(** How a call ends, whatever fails. *)
Lemma run_under_outcome (f : faults) (w : env) (d : string)
    (td : option string) :
  fst (run_under f w d td) =
  match enter_result f with
  | Some x => Raised x
  | None =>
      match exit_result f with
      | Some y => Raised y
      | None =>
          match launch_result f with
          | Some x => Raised x
          | None =>
          match new_context_result f with
          | Some x => Raised x
          | None =>
          match new_page_result f with
          | Some x => Raised x
          | None =>
          match stealth_result f with
          | Some x => Raised x
          | None =>
          match goto_result w with
          | Some x => Raised x
          | None =>
          match close_result f with
          | Some x => Raised x
          | None => fst (run_fetch w d td)
          end end end end end end
      end
  end.
Proof.
  destruct f as [en la nc np st cl ex].
  cbn [enter_result launch_result new_context_result new_page_result
       stealth_result close_result exit_result].
  split_run.
Qed.

Ltac split_faults H :=
  repeat match type of H with
         | context [match ?o with Some _ => _ | None => _ end] => destruct o
         end.

Lemma raised_is_unguarded (f : faults) (w : env) (d : string)
    (td : option string) (x : exn) :
  fst (run_under f w d td) = Raised x -> In (Some x) (unguarded f w).
Proof.
  rewrite run_under_outcome, run_outcome. unfold unguarded.
  destruct f as [en la nc np st cl ex].
  cbn [enter_result launch_result new_context_result new_page_result
       stealth_result close_result exit_result].
  remember (goto_result w) as g eqn:Hg. clear Hg.
  intros H. split_faults H; try discriminate;
    injection H as <-; cbn [In]; tauto.
Qed.

Lemma unguarded_is_raised (f : faults) (w : env) (d : string)
    (td : option string) (x : exn) :
  In (Some x) (unguarded f w) -> exists y, fst (run_under f w d td) = Raised y.
Proof.
  rewrite run_under_outcome, run_outcome. unfold unguarded.
  destruct f as [en la nc np st cl ex].
  cbn [enter_result launch_result new_context_result new_page_result
       stealth_result close_result exit_result].
  remember (goto_result w) as g eqn:Hg. clear Hg.
  intros H.
  destruct en; [eexists; reflexivity |].
  destruct ex; [eexists; reflexivity |].
  destruct la; [eexists; reflexivity |].
  destruct nc; [eexists; reflexivity |].
  destruct np; [eexists; reflexivity |].
  destruct st; [eexists; reflexivity |].
  destruct g; [eexists; reflexivity |].
  destruct cl; [eexists; reflexivity |].
  cbn [In] in H. repeat (destruct H as [H | H]; [discriminate |]). contradiction.
Qed.

Lemma nothing_unguarded_fails (f : faults) (w : env) :
  (forall x, ~ In (Some x) (unguarded f w)) ->
  f = no_faults /\ goto_result w = None.
Proof.
  unfold unguarded. destruct f as [en la nc np st cl ex].
  cbn [enter_result launch_result new_context_result new_page_result
       stealth_result close_result exit_result].
  intros H.
  destruct en as [x |]; [exfalso; apply (H x); cbn [In]; tauto |].
  destruct la as [x |]; [exfalso; apply (H x); cbn [In]; tauto |].
  destruct nc as [x |]; [exfalso; apply (H x); cbn [In]; tauto |].
  destruct np as [x |]; [exfalso; apply (H x); cbn [In]; tauto |].
  destruct st as [x |]; [exfalso; apply (H x); cbn [In]; tauto |].
  destruct cl as [x |]; [exfalso; apply (H x); cbn [In]; tauto |].
  destruct ex as [x |]; [exfalso; apply (H x); cbn [In]; tauto |].
  destruct (goto_result w) as [x |]; [exfalso; apply (H x); cbn [In]; tauto |].
  split; reflexivity.
Qed.

(** C5, as the code has it: a body that cannot be read and an arrivals
    control that cannot be clicked are both caught where they happen, with
    one line printed and the slot left as it was; but a failed click also
    skips the 4-second pause that follows it inside the same [try], which a
    successful click goes on to.  Fatal is the failure of any awaited call
    that stands outside every [try], not of the navigation alone: entering
    the [async_playwright] block, [launch], [new_context], [new_page],
    [stealth_async], [page.goto], [browser.close()] and leaving the block.
    A call raises exactly when one of these does, with an exception one of
    them raised; when none does, the call closes the browser, leaves the
    block and returns the slot, whatever reads and clicks failed. *)
Theorem caught_failures_and_fatal_calls :
  (forall r s e, matches r = true -> text r = ReadFail e ->
     on_response r s =
     (Returned tt,
      {| captured_data := captured_data s;
         playwright_running := playwright_running s;
         browser_open := browser_open s;
         seen := seen s ++ [r];
         trace := trace s ++ [EPrint (ErrorReading e)] |})) /\
  (forall w s y, click_result w = Some y ->
     click_arrivals w s =
     (Returned tt,
      {| captured_data := fold_left capture (click_events w) (captured_data s);
         playwright_running := playwright_running s;
         browser_open := browser_open s;
         seen := seen s ++ click_events w;
         trace := trace s ++ EClick "text=Arrivals" ::
                  flat_map lines (click_events w) ++ [EPrint CouldNotClick] |})) /\
  (forall w s, click_result w = None ->
     click_arrivals w s =
     (Returned tt,
      {| captured_data :=
           fold_left capture (click_events w ++ recovery_events w)
                     (captured_data s);
         playwright_running := playwright_running s;
         browser_open := browser_open s;
         seen := seen s ++ click_events w ++ recovery_events w;
         trace := trace s ++ EClick "text=Arrivals" ::
                  flat_map lines (click_events w) ++
                  ESleep 4 :: flat_map lines (recovery_events w) |})) /\
  (forall f w d td x,
     fst (run_under f w d td) = Raised x -> In (Some x) (unguarded f w)) /\
  (forall f w d td,
     (exists x, fst (run_under f w d td) = Raised x) <->
     (exists x, In (Some x) (unguarded f w))) /\
  (forall f w d td, (forall x, ~ In (Some x) (unguarded f w)) ->
     let s := snd (run_under f w d td) in
     fst (run_under f w d td) = Returned (captured_data s) /\
     In EClose (trace s) /\ In EExit (trace s) /\
     browser_open s = false /\ playwright_running s = false).
Proof.
  split; [| split; [| split; [| split; [| split]]]].
  - intros r s e Hm Ht. rewrite on_response_run.
    unfold capture, lines. rewrite Hm, Ht. reflexivity.
  - intros w s y Hy. unfold click_arrivals.
    cbv beta iota delta [try_except await bind emit print ret raise].
    rewrite deliver_run, Hy.
    cbv beta iota delta [captured_data playwright_running browser_open seen trace].
    rewrite <- !app_assoc. reflexivity.
  - intros w s Hy. unfold click_arrivals.
    cbv beta iota delta [try_except await bind emit print ret raise].
    rewrite deliver_run, Hy.
    cbv beta iota delta [captured_data playwright_running browser_open seen trace].
    rewrite deliver_run.
    cbv beta iota delta [captured_data playwright_running browser_open seen trace].
    rewrite fold_left_app, <- !app_assoc. reflexivity.
  - intros f w d td x. apply raised_is_unguarded.
  - intros f w d td. split.
    + intros [x H]. exists x. apply (raised_is_unguarded f w d td x H).
    + intros [x H]. apply (unguarded_is_raised f w d td x H).
  - intros f w d td H. cbv zeta.
    destruct (nothing_unguarded_fails f w H) as [-> Hgo].
    change (run_under no_faults w d td) with (run_fetch w d td).
    rewrite run_outcome, Hgo. split; [reflexivity |].
    rewrite run_fetch_eq. cbn [snd trace browser_open playwright_running].
    unfold effects. rewrite Hgo.
    repeat split; rewrite !in_app_iff; right; right.
    + left. right. rewrite !in_app_iff. right. right. left. reflexivity.
    + right. left. reflexivity.
Qed.

Lemma caught_failures_and_fatal_calls_at_work :
  let r := mkResponse Scenarios.schedule_url (ReadFail (Error "Target closed")) in
  let s := snd (run_under no_faults Scenarios.nothing_works "arr" None) in
  on_response r init =
  (Returned tt,
   {| captured_data := None; playwright_running := false;
      browser_open := false; seen := [r];
      trace := [EPrint (ErrorReading (Error "Target closed"))] |}) /\
  click_arrivals Scenarios.nothing_works init =
  (Returned tt,
   {| captured_data := None; playwright_running := false;
      browser_open := false; seen := [];
      trace := [EClick "text=Arrivals"; EPrint CouldNotClick] |}) /\
  click_arrivals Scenarios.quiet init =
  (Returned tt,
   {| captured_data := None; playwright_running := false;
      browser_open := false; seen := [];
      trace := [EClick "text=Arrivals"; ESleep 4] |}) /\
  In (Some (Error "BrowserType.launch: Executable does not exist"))
     (unguarded Scenarios.no_browser Scenarios.quiet) /\
  (fst (run_under no_faults Scenarios.nothing_works "arr" None)
   = Returned (captured_data s) /\
   In EClose (trace s) /\ In EExit (trace s) /\
   browser_open s = false /\ playwright_running s = false).
Proof.
  destruct caught_failures_and_fatal_calls
    as [Hread [Hfailed [Hclicked [Hraised [_ Hreturns]]]]].
  split; [| split; [| split; [| split]]].
  - apply (Hread (mkResponse Scenarios.schedule_url
                    (ReadFail (Error "Target closed"))) init
                 (Error "Target closed")).
    + vm_compute. reflexivity.
    + reflexivity.
  - apply (Hfailed Scenarios.nothing_works init
                   (TimeoutError "Timeout 30000ms exceeded.")).
    reflexivity.
  - apply (Hclicked Scenarios.quiet init). reflexivity.
  - apply (Hraised Scenarios.no_browser Scenarios.quiet "dep" None).
    vm_compute. reflexivity.
  - apply (Hreturns no_faults Scenarios.nothing_works "arr" None).
    intros x H. cbn in H.
    repeat (destruct H as [H | H]; [discriminate |]). exact H.
Defined.

(** C5, as stated, fails twice.  The navigation does not fail, yet the call
    raises, because the browser cannot be launched: the navigation is not
    even tried.  And a failed click changes what the call does next: with
    the arrivals control present the call pauses 4 seconds after the click,
    without it the pause is skipped. *)
Lemma launch_failure_is_fatal_and_failed_click_skips_pause :
  goto_result Scenarios.quiet = None /\
  run_under Scenarios.no_browser Scenarios.quiet "dep" None =
  (Raised (Error "BrowserType.launch: Executable does not exist"),
   {| captured_data := None; playwright_running := false;
      browser_open := false; seen := [];
      trace := [EEnter; ELaunch; EExit] |}) /\
  click_result Scenarios.quiet = None /\
  click_result Scenarios.no_arrivals_tab
  = Some (TimeoutError "Timeout 30000ms exceeded.") /\
  trace (snd (run_fetch Scenarios.quiet "arr" None))
  = prelude "arr" "2026-11-04" ++
    [ESleep 5; EClick "text=Arrivals"; ESleep 4; EClose; EExit] /\
  trace (snd (run_fetch Scenarios.no_arrivals_tab "arr" None))
  = prelude "arr" "2026-11-04" ++
    [ESleep 5; EClick "text=Arrivals"; EPrint CouldNotClick; EClose; EExit].
Proof.
  vm_compute. repeat split.
Qed.

(** *** The date and the direction *)

(** C7, as the code has it: a [target_date] that is [None] or the empty
    string resolves to today's date, any other value is kept, and the
    resolved date is the one the call prints. *)
Theorem target_date_resolution (w : env) (d : string) :
  resolve_target_date w None = today w /\
  resolve_target_date w (Some "") = today w /\
  (forall v, v <> "" -> resolve_target_date w (Some v) = v) /\
  (forall td,
     In (EPrint (LoadingPage d (resolve_target_date w td)))
        (trace (snd (run_fetch w d td)))).
Proof.
  split; [reflexivity | split; [reflexivity | split]].
  - intros v Hv. unfold resolve_target_date, truthy.
    apply String.eqb_neq in Hv. rewrite Hv. reflexivity.
  - intros td. rewrite run_trace. unfold effects, prelude.
    apply in_or_app. left. cbn [In]. tauto.
Qed.

Lemma target_date_resolution_quiet :
  resolve_target_date Scenarios.quiet (Some "2026-12-25") = "2026-12-25".
Proof.
  destruct (target_date_resolution Scenarios.quiet "dep") as [_ [_ [Hkept _]]].
  apply Hkept. discriminate.
Defined.

(** C7, as stated, fails: the empty string is a [target_date] the caller
    provided, and it is today's date that the call uses and prints. *)
Lemma empty_target_date_is_replaced :
  resolve_target_date Scenarios.quiet (Some "") = "2026-11-04" /\
  resolve_target_date Scenarios.quiet (Some "") <> "" /\
  trace (snd (run_fetch Scenarios.quiet "dep" (Some "")))
  = prelude "dep" "2026-11-04" ++ [ESleep 5; EClose; EExit].
Proof.
  vm_compute. repeat split; discriminate.
Qed.

Lemma with_direction_lines (d : string) (rs : list response) :
  map (with_direction d) (flat_map lines rs) = flat_map lines rs.
Proof.
  induction rs as [| r rs IH]; [reflexivity |].
  cbn [flat_map]. rewrite map_app, IH. f_equal. unfold lines.
  destruct (matches r); [destruct (text r) |]; reflexivity.
Qed.

Lemma recovery_not_due (w : env) (d : string) :
  d <> "arr" -> recovery_due w d = false.
Proof.
  intros Hd. unfold recovery_due.
  apply String.eqb_neq in Hd. rewrite Hd. reflexivity.
Qed.

(** C10: a call with any direction other than ['arr'] is a departures call:
    it returns what the call with ['dep'] returns, leaves the same store, has
    the same effects up to the direction printed in the loading line, and
    never tries the arrivals control. *)
Theorem other_directions_behave_as_dep (w : env) (d : string)
    (td : option string) :
  d <> "arr" ->
  let s := snd (run_fetch w d td) in
  let s' := snd (run_fetch w "dep" td) in
  fst (run_fetch w d td) = fst (run_fetch w "dep" td) /\
  captured_data s = captured_data s' /\
  seen s = seen s' /\
  playwright_running s = playwright_running s' /\
  browser_open s = browser_open s' /\
  trace s = map (with_direction d) (trace s') /\
  clicks (trace s) = 0.
Proof.
  intros Hd. cbv zeta. rewrite !run_fetch_eq. cbn [fst snd captured_data seen
    playwright_running browser_open trace].
  assert (Hobs : observed w d = observed w "dep").
  { unfold observed. rewrite (recovery_not_due w d Hd).
    rewrite (recovery_not_due w "dep") by discriminate. reflexivity. }
  rewrite Hobs. repeat (split; [reflexivity |]). split.
  - unfold effects, recovery_effects.
    rewrite (recovery_not_due w d Hd).
    rewrite (recovery_not_due w "dep") by discriminate.
    destruct (goto_result w);
      repeat first [ rewrite map_app | rewrite with_direction_lines
                   | progress cbn [map app with_direction] ];
      reflexivity.
  - rewrite clicks_effects, (recovery_not_due w d Hd).
    destruct (goto_result w); reflexivity.
Qed.

Lemma other_directions_behave_as_dep_departures :
  fst (run_fetch Scenarios.one_match "departures" None)
  = fst (run_fetch Scenarios.one_match "dep" None) /\
  clicks (trace (snd (run_fetch Scenarios.one_match "departures" None))) = 0.
Proof.
  destruct (other_directions_behave_as_dep Scenarios.one_match "departures" None)
    as [Hres [_ [_ [_ [_ [_ Hclicks]]]]]].
  - discriminate.
  - split; [exact Hres | exact Hclicks].
Defined.

End ScraperProps.

(** ** Properties of the prediction service *)

Module MlServiceProps.
Import MlService.
Local Open Scope list_scope.

(** C8: [predict] answers with the flight id of the request and the fixed
    probability 0.75, confidence ["medium"], delay of 15 minutes and model
    version ["1.0.0"]; two requests for the same flight get the same answer
    whatever their weather data and flight features. *)
Theorem predict_is_constant :
  (forall request,
     predict request =
     {| resp_flight_id := flight_id request;
        probability := 0.75%float;
        confidence := "medium";
        predicted_delay_minutes := 15%Z;
        model_version := "1.0.0" |}) /\
  (forall id weather features weather' features',
     predict (mkPredictionRequest id weather features)
     = predict (mkPredictionRequest id weather' features')).
Proof.
  split.
  - intros request. reflexivity.
  - intros id weather features weather' features'. reflexivity.
Qed.

(** The dictionary the loop appends for one flight is the single prediction
    for that flight, field by field. *)
Lemma append_result_predict (results : list dict) (flight : PredictionRequest) :
  append_result results flight = results ++ [model_dump (predict flight)].
Proof. reflexivity. Qed.

(** The loop, from any list of results gathered so far. *)
Lemma fold_append_result (fs : list PredictionRequest) (acc : list dict) :
  fold_left append_result fs acc
  = acc ++ map (fun flight => model_dump (predict flight)) fs.
Proof.
  revert acc. induction fs as [| f fs IH]; intros acc; cbn [fold_left map].
  - rewrite app_nil_r. reflexivity.
  - rewrite IH, append_result_predict, <- app_assoc. reflexivity.
Qed.

Lemma batch_results_map (request : BatchPredictionRequest) :
  batch_results request
  = map (fun flight => model_dump (predict flight)) (flights request).
Proof. unfold batch_results. rewrite fold_append_result. reflexivity. Qed.

(** C9: [predict_batch] is the single prediction mapped over the flights of
    the request: one entry per flight, in the order of the input, each entry
    the fields [predict] gives for that flight. *)
Theorem predict_batch_is_map_of_predict (request : BatchPredictionRequest) :
  predict_batch request = predict_batch_by_map request /\
  length (batch_results request) = length (flights request) /\
  (forall i,
     nth_error (batch_results request) i
     = option_map (fun flight => model_dump (predict flight))
                  (nth_error (flights request) i)).
Proof.
  split; [| split].
  - unfold predict_batch, predict_batch_by_map.
    rewrite batch_results_map, map_map. reflexivity.
  - rewrite batch_results_map. apply length_map.
  - intros i. rewrite batch_results_map. apply nth_error_map.
Qed.

End MlServiceProps.

(** ** Further properties of [fetch_flights] *)

Module FetchProps.
Import Scraper Readings ScraperProps.
Local Open Scope list_scope.

(** *** Where a returned payload comes from *)



Lemma fold_capture_some (rs : list response) (c : option string)
    (body : string) :
  fold_left capture rs c = Some body ->
  c = Some body \/
  exists r, In r rs /\ matches r = true /\ text r = ReadOk body.
Proof.
  revert c. induction rs as [| r rs IH]; cbn [fold_left]; intros c H.
  - left. exact H.
  - destruct (IH _ H) as [Hc | [r' [Hin [Hm Ht]]]].
    + unfold capture in Hc. destruct (matches r) eqn:Hm.
      * destruct (text r) as [b | e] eqn:Ht.
        -- right. exists r. injection Hc as ->.
           split; [left; reflexivity | split; assumption].
        -- left. exact Hc.
      * left. exact Hc.
    + right. exists r'. split; [right; exact Hin | split; assumption].
Qed.



(** A payload a call returns is the body of a response the call observed,
    matched and read: nothing else ever reaches the caller. *)
Theorem payload_comes_from_a_response (w : env) (d : string)
    (td : option string) (body : string) :
  fst (run_fetch w d td) = Returned (Some body) ->
  exists r,
    In r (seen (snd (run_fetch w d td))) /\
    matches r = true /\ text r = ReadOk body.
Proof.
  rewrite run_outcome. destruct (goto_result w); [discriminate |].
  intros H. injection H as H. rewrite run_captured in H.
  apply fold_capture_some in H. destruct H as [H | H]; [discriminate | exact H].
Qed.

Lemma payload_comes_from_a_response_one_match :
  exists r,
    In r (seen (snd (run_fetch Scenarios.one_match "dep" None))) /\
    matches r = true /\ text r = ReadOk "<flights></flights>".
Proof.
  apply (payload_comes_from_a_response Scenarios.one_match "dep" None).
  vm_compute. reflexivity.
Defined.

(** *** The session on every way out *)






(** *** One call after another *)



(** *** What the listener matches *)

Lemma prefix_iff_append (a s : string) :
  prefix a s = true <-> exists after, s = (a ++ after)%string.
Proof.
  revert s. induction a as [| c a IH]; intros s.
  - split; [intros _; exists s; reflexivity | intros _; destruct s; reflexivity].
  - destruct s as [| c' s]; cbn [prefix append].
    + split; [discriminate | intros [after H]; discriminate].
    + destruct (Ascii.ascii_dec c c') as [-> | Hne].
      * rewrite IH. split; intros [after H]; exists after.
        -- rewrite H. reflexivity.
        -- injection H as H. exact H.
      * split; [discriminate |].
        intros [after H]. injection H as Hc _. congruence.
Qed.

Lemma contains_cons (sub : string) (c : Ascii.ascii) (s : string) :
  contains sub (String c s) = prefix sub (String c s) || contains sub s.
Proof.
  unfold contains. cbn [index].
  destruct (prefix sub (String c s)); [reflexivity |].
  destruct (index 0 sub s); reflexivity.
Qed.

Lemma contains_iff (sub s : string) :
  contains sub s = true <->
  exists before after, s = (before ++ sub ++ after)%string.
Proof.
  induction s as [| c s IH].
  - unfold contains. cbn [index]. destruct sub as [| a sub].
    + split; [intros _; exists ""%string, ""%string; reflexivity | reflexivity].
    + split; [discriminate |].
      intros [before [after H]]. destruct before; discriminate.
  - rewrite contains_cons, orb_true_iff, prefix_iff_append, IH. split.
    + intros [[after H] | [before [after H]]].
      * exists ""%string, after. exact H.
      * exists (String c before), after. rewrite H. reflexivity.
    + intros [before [after H]]. destruct before as [| b before].
      * left. exists after. exact H.
      * right. injection H as _ H. exists before, after. exact H.
Qed.

(** The listener takes a response for a schedule response exactly when
    ["/api/schedule"] occurs somewhere in its URL, whatever comes before
    (host, path) and after (query) it. *)
Theorem matches_iff_url_contains (r : response) :
  matches r = true <->
  exists before after, url r = (before ++ "/api/schedule" ++ after)%string.
Proof. unfold matches. apply contains_iff. Qed.

(** *** Responses the listener does not match *)

Lemma fold_capture_filter (rs : list response) (c : option string) :
  fold_left capture (filter matches rs) c = fold_left capture rs c.
Proof.
  revert c. induction rs as [| r rs IH]; intros c; [reflexivity |].
  cbn [filter fold_left]. destruct (matches r) eqn:Hm.
  - cbn [fold_left]. apply IH.
  - rewrite IH.
    replace (capture c r) with c by (unfold capture; rewrite Hm; reflexivity).
    reflexivity.
Qed.

Lemma lines_filter (rs : list response) :
  flat_map lines (filter matches rs) = flat_map lines rs.
Proof.
  induction rs as [| r rs IH]; [reflexivity |].
  cbn [filter flat_map]. destruct (matches r) eqn:Hm.
  - cbn [flat_map]. rewrite IH. reflexivity.
  - rewrite IH.
    replace (lines r) with (@nil effect) by (unfold lines; rewrite Hm; reflexivity).
    reflexivity.
Qed.

Lemma recovery_due_only_matching (w : env) (d : string) :
  recovery_due (only_matching w) d = recovery_due w d.
Proof.
  unfold recovery_due, slot_at_check.
  cbn [only_matching goto_events settle_events].
  rewrite <- filter_app, fold_capture_filter. reflexivity.
Qed.

Lemma observed_only_matching (w : env) (d : string) :
  observed (only_matching w) d = filter matches (observed w d).
Proof.
  unfold observed. rewrite recovery_due_only_matching.
  cbn [only_matching goto_events goto_result settle_events click_events
       click_result recovery_events close_events exit_events].
  destruct (goto_result w); [| destruct (recovery_due w d);
                                [destruct (click_result w) |]];
    rewrite ?filter_app, ?app_nil_r; reflexivity.
Qed.

Lemma effects_only_matching (w : env) (d : string) (td : option string) :
  effects (only_matching w) d td = effects w d td.
Proof.
  unfold effects, recovery_effects. rewrite recovery_due_only_matching.
  cbn [only_matching today goto_events goto_result settle_events click_events
       click_result recovery_events close_events exit_events].
  rewrite !lines_filter. reflexivity.
Qed.

(** Responses with another URL change nothing: with every unmatched
    response taken out of the world, a call returns the same, ends with the
    same slot and has the same effects, prints included. *)
Theorem unmatched_responses_change_nothing (w : env) (d : string)
    (td : option string) :
  let s := snd (run_fetch w d td) in
  let s' := snd (run_fetch (only_matching w) d td) in
  fst (run_fetch (only_matching w) d td) = fst (run_fetch w d td) /\
  captured_data s' = captured_data s /\
  trace s' = trace s /\
  seen s' = filter matches (seen s).
Proof.
  cbv zeta. rewrite !run_fetch_eq.
  cbn [fst snd captured_data trace seen].
  rewrite observed_only_matching, effects_only_matching, fold_capture_filter.
  repeat split.
Qed.

End FetchProps.

(** ** Properties of the entry point *)

Module EntryProps.
Import Scraper Entry ScraperProps.
Local Open Scope list_scope.

Lemma main_fetched (w : env) (open_error : option string) (fs : files) :
  fetched (main w open_error fs) = snd (run_fetch w "dep" None).
Proof.
  unfold main. destruct (run_fetch w "dep" None) as [[[d |] | e] s];
    [destruct (truthy (Some d)); [destruct open_error |] | |]; reflexivity.
Qed.

Lemma main_on_payload (w : env) (open_error : option string) (fs : files)
    (d : string) :
  fst (run_fetch w "dep" None) = Returned (Some d) -> d <> ""%string ->
  main w open_error fs =
  match open_error with
  | None =>
      {| raised := None; fetched := snd (run_fetch w "dep" None);
         files_after := write "flights.xml" d fs;
         console := [SavedTo "flights.xml"; Preview (preview d)] |}
  | Some msg =>
      {| raised := Some (OpenFailed msg);
         fetched := snd (run_fetch w "dep" None);
         files_after := fs; console := [] |}
  end.
Proof.
  intros Hres Hd. unfold main.
  destruct (run_fetch w "dep" None) as [o s]. cbn [fst snd] in *. subst o.
  unfold truthy. apply String.eqb_neq in Hd. rewrite Hd. reflexivity.
Qed.

Lemma main_on_nothing (w : env) (open_error : option string) (fs : files)
    (c : option string) :
  fst (run_fetch w "dep" None) = Returned c -> truthy c = false ->
  main w open_error fs =
  {| raised := None; fetched := snd (run_fetch w "dep" None);
     files_after := fs; console := [NoDataCaptured] |}.
Proof.
  intros Hres Hc. unfold main.
  destruct (run_fetch w "dep" None) as [o s]. cbn [fst snd] in *. subst o.
  destruct c as [d |]; [rewrite Hc |]; reflexivity.
Qed.



(** When [fetch_flights] returns [None] or an empty body, the script prints
    [No data captured], ends normally and writes nothing: every file,
    [flights.xml] of an earlier run included, is left as it was. *)
Theorem main_without_data_writes_nothing (w : env)
    (open_error : option string) (fs : files) (c : option string) :
  fst (run_fetch w "dep" None) = Returned c ->
  truthy c = false ->
  let e := main w open_error fs in
  raised e = None /\
  files_after e = fs /\
  console e = [NoDataCaptured].
Proof.
  intros Hres Hc e. subst e.
  rewrite (main_on_nothing w open_error fs c Hres Hc). repeat split.
Qed.

Lemma main_without_data_writes_nothing_empty_body :
  let e := main Scenarios.empty_body None stale_disk in
  raised e = None /\
  files_after e = stale_disk /\
  console e = [NoDataCaptured].
Proof.
  apply (main_without_data_writes_nothing Scenarios.empty_body None
           stale_disk (Some ""%string)).
  - vm_compute. reflexivity.
  - reflexivity.
Defined.



(** Whatever happens, the script touches no file but [flights.xml]. *)
Theorem main_touches_only_flights_xml (w : env) (open_error : option string)
    (fs : files) (name : string) :
  name <> "flights.xml"%string ->
  files_after (main w open_error fs) name = fs name.
Proof.
  intros Hname. unfold main.
  destruct (run_fetch w "dep" None) as [[[d |] | e] s];
    [destruct (truthy (Some d)); [destruct open_error |] | |];
    cbn [files_after]; try reflexivity.
  unfold write. apply String.eqb_neq in Hname. rewrite Hname. reflexivity.
Qed.

Lemma main_touches_only_flights_xml_one_match :
  files_after (main Scenarios.one_match None stale_disk) "notes.txt"%string
  = stale_disk "notes.txt"%string.
Proof.
  apply (main_touches_only_flights_xml Scenarios.one_match None stale_disk).
  discriminate.
Defined.

(** When [flights.xml] cannot be opened, no file changes and the script
    never prints that it saved; with a payload in hand it ends with the
    error of [open] and prints nothing of its own. *)
Theorem main_open_failure_saves_nothing (w : env) (msg : string) (fs : files) :
  let e := main w (Some msg) fs in
  files_after e = fs /\
  (forall n, ~ In (SavedTo n) (console e)) /\
  (forall d, fst (run_fetch w "dep" None) = Returned (Some d) ->
             d <> ""%string ->
             raised e = Some (OpenFailed msg) /\ console e = []).
Proof.
  cbv zeta. split; [| split].
  - unfold main.
    destruct (run_fetch w "dep" None) as [[[d |] | e] s];
      [destruct (truthy (Some d)) | |]; reflexivity.
  - intros n. unfold main.
    destruct (run_fetch w "dep" None) as [[[d |] | e] s];
      [destruct (truthy (Some d)) | |]; cbn [console In];
      intros H; repeat (destruct H as [H | H]; [discriminate |]); exact H.
  - intros d Hres Hd. rewrite (main_on_payload w (Some msg) fs d Hres Hd).
    split; reflexivity.
Qed.

Lemma main_open_failure_saves_nothing_one_match :
  let e := main Scenarios.one_match (Some "Permission denied"%string) stale_disk in
  raised e = Some (OpenFailed "Permission denied") /\ console e = [].
Proof.
  destruct (main_open_failure_saves_nothing Scenarios.one_match
              "Permission denied"%string stale_disk) as [_ [_ Hraised]].
  apply (Hraised "<flights></flights>"%string).
  - vm_compute. reflexivity.
  - discriminate.
Defined.

(** *** The preview *)

Lemma substring_length (n : nat) (s : string) :
  String.length (substring 0 n s) = Nat.min n (String.length s).
Proof.
  revert s. induction n as [| n IH]; intros s.
  - destruct s; reflexivity.
  - destruct s as [| c s]; [reflexivity |].
    cbn [substring String.length Nat.min]. rewrite IH. reflexivity.
Qed.

Lemma substring_splits (n : nat) (s : string) :
  exists rest, s = (substring 0 n s ++ rest)%string.
Proof.
  revert s. induction n as [| n IH]; intros s.
  - exists s. destruct s; reflexivity.
  - destruct s as [| c s]; [exists ""%string; reflexivity |].
    destruct (IH s) as [rest Hrest]. exists rest.
    cbn [substring append]. rewrite <- Hrest. reflexivity.
Qed.

Lemma substring_whole (n : nat) (s : string) :
  String.length s <= n -> substring 0 n s = s.
Proof.
  revert s. induction n as [| n IH]; intros s Hlen.
  - destruct s; [reflexivity | cbn in Hlen; lia].
  - destruct s as [| c s]; [reflexivity |].
    cbn [substring]. rewrite IH; [reflexivity | cbn in Hlen; lia].
Qed.

(** The preview is the start of the payload, never longer than 300
    characters, and the whole payload exactly when the payload has at most
    300 characters. *)
Theorem preview_is_bounded_prefix (data : string) :
  String.length (preview data) = Nat.min 300 (String.length data) /\
  (exists rest, data = (preview data ++ rest)%string) /\
  (preview data = data <-> String.length data <= 300).
Proof.
  unfold preview. split; [apply substring_length | split].
  - apply substring_splits.
  - split.
    + intros H. pose proof (substring_length 300 data) as Hlen.
      rewrite H in Hlen. lia.
    + apply substring_whole.
Qed.

(** *** What the script never does *)

(** The script asks for departures, so it never clicks the arrivals control
    and never sleeps more than the 5 seconds of the settle delay. *)
Theorem main_never_clicks (w : env) (open_error : option string) (fs : files) :
  let t := trace (fetched (main w open_error fs)) in
  clicks t = 0 /\ slept t <= 5.
Proof.
  cbv zeta. rewrite main_fetched, run_trace.
  rewrite clicks_effects, slept_effects.
  rewrite (recovery_not_due w "dep") by discriminate.
  destruct (goto_result w); split; cbn; lia.
Qed.

End EntryProps.

(** ** Further properties of the prediction service *)

Module ServiceProps.
Import MlService MlServiceProps.
Local Open Scope list_scope.

(** The flight ids read back from the entries of a batch answer are the
    flight ids of the request, one for one and in the same order, repeated
    ids included. *)
Theorem batch_flight_ids_round_trip (request : BatchPredictionRequest) :
  map (dict_get "flight_id") (batch_results request)
  = map (fun flight => Some (VInt (flight_id flight))) (flights request).
Proof.
  rewrite batch_results_map, map_map. apply map_ext.
  intros flight. reflexivity.
Qed.

(** A batch can be split: the answer for two lists of flights put end to end
    is the answer for the first followed by the answer for the second, and
    the answer for no flights is empty. *)
Theorem batch_results_app (a b : list PredictionRequest) :
  batch_results (mkBatchPredictionRequest (a ++ b))
  = batch_results (mkBatchPredictionRequest a) ++
    batch_results (mkBatchPredictionRequest b) /\
  batch_results (mkBatchPredictionRequest []) = [].
Proof.
  split; [| reflexivity].
  rewrite !batch_results_map. cbn [flights]. apply map_app.
Qed.

(** The model version every prediction carries, single or in a batch, is
    the version [model_info] reports. *)
Theorem model_version_agrees (request : PredictionRequest)
    (batch : BatchPredictionRequest) :
  dict_get "version" model_info = Some (VStr (model_version (predict request))) /\
  Forall (fun entry => dict_get "model_version" entry
                       = dict_get "version" model_info)
         (batch_results batch).
Proof.
  split; [reflexivity |].
  rewrite batch_results_map. apply Forall_forall.
  intros entry Hin. apply in_map_iff in Hin. destruct Hin as [flight [<- _]].
  reflexivity.
Qed.

End ServiceProps.
